(** * euvote: the vote-registration and game-state model of [api.py]

    A shallow embedding of the [Participant] and [Game] models of
    [src/api.py], of the two vote-registration methods, of the JSON
    persistence ([Game.load_game], [Game.save_game]) and of the [/game]
    and [/reset] handlers, followed by the properties of that code.

    Python objects live in a store and are named by references, so that a
    caster and a target that are the same object are the same store cell.
    Exceptions are values: every operation yields an [outcome]. *)

From Stdlib Require Import ZArith String Ascii List Lia.
From stdpp Require Import base option list gmap strings fin_maps.

Open Scope Z_scope.
Open Scope string_scope.
Open Scope list_scope.

(** ** Exceptions and outcomes *)

(** The exceptions the modelled code can raise: the two declared in
    [api.py] and the built-in ones its expressions raise. *)
Inductive exn : Set :=
| IllegalVote            (* HTTPException 400, "Illegal vote." *)
| ParticipantNotFound    (* HTTPException 404, "Participant not found." *)
| AttributeError
| TypeError
| KeyError
| ValidationError        (* pydantic *)
| FileNotFoundError.

Inductive outcome (A : Type) : Type :=
| Returned (a : A)
| Raised (e : exn).
Arguments Returned {A} a.
Arguments Raised {A} e.

#[global] Instance exn_eq_dec : EqDecision exn.
Proof. solve_decision. Defined.

#[global] Instance outcome_ret : MRet outcome := @Returned.
#[global] Instance outcome_bind : MBind outcome := fun A B f m =>
  match m with
  | Returned a => f a
  | Raised e => Raised e
  end.

(** [for x in l: f x], stopping at the first exception. *)
Fixpoint for_each {A B : Type} (f : A -> outcome B) (l : list A) : outcome (list B) :=
  match l with
  | [] => Returned []
  | x :: l' =>
      match f x with
      | Raised e => Raised e
      | Returned y =>
          match for_each f l' with
          | Raised e => Raised e
          | Returned ys => Returned (y :: ys)
          end
      end
  end.

(** ** Participant *)

(** The fields [Participant] declares, in declaration order.  The class
    declares no [voted_by] field. *)
Record Participant : Type := mkParticipant {
  name : string;
  avatar : option string;
  points : Z;
  j_75_played : bool;
  j_100_played : bool;
  available_votes : list Z;
  voted_for : gmap string Z;
  can_vote : bool;
  is_checked : bool
}.

(** The default of [available_votes]. *)
Definition deck : list Z := [12; 10; 8; 7; 6; 5; 4; 3; 2; 1].

(** [Participant(name=n)]: every other field at its declared default. *)
Definition new_participant (n : string) : Participant :=
  {| name := n; avatar := None; points := 0;
     j_75_played := false; j_100_played := false;
     available_votes := deck; voted_for := ∅;
     can_vote := true; is_checked := false |}.

Definition set_available_votes (l : list Z) (p : Participant) : Participant :=
  {| name := name p; avatar := avatar p; points := points p;
     j_75_played := j_75_played p; j_100_played := j_100_played p;
     available_votes := l; voted_for := voted_for p;
     can_vote := can_vote p; is_checked := is_checked p |}.

Definition set_voted_for (m : gmap string Z) (p : Participant) : Participant :=
  {| name := name p; avatar := avatar p; points := points p;
     j_75_played := j_75_played p; j_100_played := j_100_played p;
     available_votes := available_votes p; voted_for := m;
     can_vote := can_vote p; is_checked := is_checked p |}.

Definition set_points (z : Z) (p : Participant) : Participant :=
  {| name := name p; avatar := avatar p; points := z;
     j_75_played := j_75_played p; j_100_played := j_100_played p;
     available_votes := available_votes p; voted_for := voted_for p;
     can_vote := can_vote p; is_checked := is_checked p |}.

Definition set_can_vote (b : bool) (p : Participant) : Participant :=
  {| name := name p; avatar := avatar p; points := points p;
     j_75_played := j_75_played p; j_100_played := j_100_played p;
     available_votes := available_votes p; voted_for := voted_for p;
     can_vote := b; is_checked := is_checked p |}.

(** [x in l] on a list of integers. *)
Definition contains (x : Z) (l : list Z) : bool := existsb (Z.eqb x) l.

(** [l.remove(x)]: drops the first occurrence of [x]. *)
Fixpoint list_remove (x : Z) (l : list Z) : list Z :=
  match l with
  | [] => []
  | y :: l' => if Z.eqb x y then l' else y :: list_remove x l'
  end.

(** The dict-valued attributes an instance of [Participant] has, by
    name: the declared [Dict] fields.  Reading any other name is an
    [AttributeError]. *)
Definition dict_attr (p : Participant) (attr : string) : outcome (gmap string Z) :=
  if String.eqb attr "voted_for" then Returned (voted_for p)
  else Raised AttributeError.

Definition set_dict_attr (attr : string) (m : gmap string Z) (p : Participant) : Participant :=
  if String.eqb attr "voted_for" then set_voted_for m p else p.

(** ** The object store *)

(** Participants are objects: a store cell per object, a reference is the
    index of its cell. *)
Abbreviation store := (list Participant).
Abbreviation ref := nat.

(** [Participant.register_vote_for(self, voted_by, vote)]:
<<
    self.voted_by[voted_by.name] = vote
    self.points += vote
>>
    [None] only for a reference outside the store. *)
Definition register_vote_for (σ : store) (self voted_by : ref) (vote : Z)
  : option (outcome unit * store) :=
  match σ !! self, σ !! voted_by with
  | Some me, Some voter =>
      match dict_attr me "voted_by" with
      | Raised e => Some (Raised e, σ)
      | Returned d =>
          let me1 := set_dict_attr "voted_by" (<[name voter := vote]> d) me in
          let me2 := set_points (points me1 + vote) me1 in
          Some (Returned tt, <[self := me2]> σ)
      end
  | _, _ => None
  end.

(** [Participant.register_vote_by(self, vote_for, vote)]:
<<
    if vote not in self.available_votes:
        raise IllegalVote()
    self.available_votes.remove(vote)
    self.voted_for[vote_for.name] = vote
    vote_for.register_vote_by(self, vote)
    self.can_vote = bool(self.available_votes)
    return vote_for
>>
    The method calls itself on the target, the roles exchanged.  [fuel]
    bounds the depth of that recursion; [None] for exhausted fuel and for
    a reference outside the store. *)
Fixpoint register_vote_by_rec (fuel : nat) (σ : store) (self vote_for : ref) (vote : Z)
  : option (outcome ref * store) :=
  match fuel with
  | O => None
  | S fuel' =>
      match σ !! self, σ !! vote_for with
      | Some me, Some _ =>
          if negb (contains vote (available_votes me)) then
            Some (Raised IllegalVote, σ)
          else
            let σ1 := <[self := set_available_votes (list_remove vote (available_votes me)) me]> σ in
            match σ1 !! self, σ1 !! vote_for with
            | Some me1, Some target =>
                let σ2 := <[self := set_voted_for (<[name target := vote]> (voted_for me1)) me1]> σ1 in
                match register_vote_by_rec fuel' σ2 vote_for self vote with
                | None => None
                | Some (Raised e, σ3) => Some (Raised e, σ3)
                | Some (Returned _, σ3) =>
                    match σ3 !! self with
                    | Some me3 =>
                        Some (Returned vote_for,
                              <[self := set_can_vote
                                          (match available_votes me3 with [] => false | _ => true end)
                                          me3]> σ3)
                    | None => None
                    end
                end
            | _, _ => None
            end
      | _, _ => None
      end
  end.

(** Each level of the recursion that gets past the test removes one
    element of a deck, so the fuel [register_vote_by] takes is never
    exhausted.  The interpreter's own limit on the depth of recursion is
    not modelled. *)
Definition votes_left (σ : store) (r : ref) : nat :=
  match σ !! r with
  | Some p => length (available_votes p)
  | None => O
  end.

Definition register_vote_by (σ : store) (self vote_for : ref) (vote : Z)
  : option (outcome ref * store) :=
  register_vote_by_rec (S (votes_left σ self + votes_left σ vote_for)) σ self vote_for vote.

(** ** JSON documents *)

(** The value [json.load] returns.  Numbers are integers (floating-point
    literals are outside this model); an object is the list of the items
    of its dict, keys pairwise distinct, and a key is looked up from the
    front. *)
#[warnings="-register-all"]
Inductive json : Type :=
| JNull
| JBool (b : bool)
| JInt (z : Z)
| JStr (s : string)
| JList (l : list json)
| JObj (items : list (string * json)).

Fixpoint assoc {A : Type} (key : string) (items : list (string * A)) : option A :=
  match items with
  | [] => None
  | (k, v) :: items' => if String.eqb key k then Some v else assoc key items'
  end.

(** [data[key]] for a string [key]: only a dict can be subscripted by a
    string, and the key has to be there. *)
Definition subscript (data : json) (key : string) : outcome json :=
  match data with
  | JObj items =>
      match assoc key items with
      | Some v => Returned v
      | None => Raised KeyError
      end
  | _ => Raised TypeError
  end.

Fixpoint chars (s : string) : list string :=
  match s with
  | EmptyString => []
  | String c s' => String c EmptyString :: chars s'
  end.

(** [for val in data]: the elements of a list, the keys of a dict, the
    characters of a string. *)
Definition iterate (data : json) : outcome (list json) :=
  match data with
  | JList l => Returned l
  | JObj items => Returned (map (fun kv => JStr (fst kv)) items)
  | JStr s => Returned (map JStr (chars s))
  | _ => Raised TypeError
  end.

(** ** Field validation *)

(** The validators pydantic runs on the value given for a field, one per
    declared field type: [str], [int], [bool], [List[int]] and
    [Dict[str, int]]; [None] is a validation error.  Which values of
    another JSON type they coerce is pydantic's business; [ValidatorsOk]
    fixes what they do on a value that already has the declared type. *)
Class Validators : Type := {
  str_validator : json -> option string;
  int_validator : json -> option Z;
  bool_validator : json -> option bool;
  list_int_validator : json -> option (list Z);
  dict_str_int_validator : json -> option (gmap string Z)
}.

Definition json_of_dict (items : list (string * Z)) : json :=
  JObj (map (fun kv => (fst kv, JInt (snd kv))) items).

Class ValidatorsOk (V : Validators) : Prop := {
  str_validator_str : forall s, str_validator (JStr s) = Some s;
  int_validator_int : forall z, int_validator (JInt z) = Some z;
  bool_validator_bool : forall b, bool_validator (JBool b) = Some b;
  list_int_validator_list : forall l, list_int_validator (JList (map JInt l)) = Some l;
  dict_str_int_validator_dict : forall items,
    NoDup (map fst items) ->
    dict_str_int_validator (json_of_dict items) = Some (list_to_map items)
}.

(** The validators that coerce nothing. *)
Definition strict_str (j : json) : option string :=
  match j with JStr s => Some s | _ => None end.
Definition strict_int (j : json) : option Z :=
  match j with JInt z => Some z | _ => None end.
Definition strict_bool (j : json) : option bool :=
  match j with JBool b => Some b | _ => None end.
Definition strict_list_int (j : json) : option (list Z) :=
  match j with JList l => mapM strict_int l | _ => None end.
Definition strict_dict_str_int (j : json) : option (gmap string Z) :=
  match j with
  | JObj items =>
      kvs ← mapM (fun kv => z ← strict_int (snd kv); Some (fst kv, z)) items;
      Some (list_to_map kvs)
  | _ => None
  end.

Definition strict : Validators :=
  {| str_validator := strict_str; int_validator := strict_int;
     bool_validator := strict_bool; list_int_validator := strict_list_int;
     dict_str_int_validator := strict_dict_str_int |}.

(** ** Constructing and serialising a Participant *)

Section Models.
Context {V : Validators}.

(** A field given by keyword is validated; an absent one takes its
    default. *)
Definition field {A : Type} (validate : json -> option A) (default : A)
    (key : string) (kwargs : list (string * json)) : outcome A :=
  match assoc key kwargs with
  | None => Returned default
  | Some j =>
      match validate j with
      | Some a => Returned a
      | None => Raised ValidationError
      end
  end.

(** [Optional[str]]: [None] is allowed. *)
Definition optional_str (j : json) : option (option string) :=
  match j with
  | JNull => Some None
  | _ => Some <$> str_validator j
  end.

(** The constructor of [Participant], called with keyword arguments
    [kwargs]: [name] is required, keys that are not fields are ignored. *)
Definition Participant_init (kwargs : list (string * json)) : outcome Participant :=
  match assoc "name" kwargs with
  | None => Raised ValidationError
  | Some j =>
      match str_validator j with
      | None => Raised ValidationError
      | Some n =>
          av ← field optional_str None "avatar" kwargs;
          pt ← field int_validator 0 "points" kwargs;
          j75 ← field bool_validator false "j_75_played" kwargs;
          j100 ← field bool_validator false "j_100_played" kwargs;
          votes ← field list_int_validator deck "available_votes" kwargs;
          vf ← field dict_str_int_validator ∅ "voted_for" kwargs;
          cv ← field bool_validator true "can_vote" kwargs;
          chk ← field bool_validator false "is_checked" kwargs;
          Returned {| name := n; avatar := av; points := pt;
                      j_75_played := j75; j_100_played := j100;
                      available_votes := votes; voted_for := vf;
                      can_vote := cv; is_checked := chk |}
      end
  end.

(** The constructor called on a value [val] of the document unpacked
    as keyword arguments: only a mapping can be unpacked. *)
Definition Participant_of_json (val : json) : outcome Participant :=
  match val with
  | JObj kwargs => Participant_init kwargs
  | _ => Raised TypeError
  end.

End Models.

Definition json_of_option_str (o : option string) : json :=
  match o with
  | Some s => JStr s
  | None => JNull
  end.

(** [Participant.dict()]: the declared fields, in declaration order. *)
Definition Participant_dict (p : Participant) : json :=
  JObj [ ("name", JStr (name p));
         ("avatar", json_of_option_str (avatar p));
         ("points", JInt (points p));
         ("j_75_played", JBool (j_75_played p));
         ("j_100_played", JBool (j_100_played p));
         ("available_votes", JList (map JInt (available_votes p)));
         ("voted_for", json_of_dict (map_to_list (voted_for p)));
         ("can_vote", JBool (can_vote p));
         ("is_checked", JBool (is_checked p)) ].

(** ** Game *)

Record Game : Type := mkGame {
  participants : list Participant;
  save_file : option string;
  audio_name : option string;
  player_name : option string;
  voter : option Participant;
  vote_buff : option (list (string * json))
}.

Definition set_save_file (path : option string) (g : Game) : Game :=
  {| participants := participants g; save_file := path;
     audio_name := audio_name g; player_name := player_name g;
     voter := voter g; vote_buff := vote_buff g |}.

(** [Game.dict()]. *)
Definition Game_dict (g : Game) : json :=
  JObj [ ("participants", JList (map Participant_dict (participants g)));
         ("save_file", json_of_option_str (save_file g));
         ("audio_name", json_of_option_str (audio_name g));
         ("player_name", json_of_option_str (player_name g));
         ("voter", match voter g with Some p => Participant_dict p | None => JNull end);
         ("vote_buff", match vote_buff g with Some d => JObj d | None => JNull end) ].

(** *** Paths *)

(** [s.split("/")]. *)
Fixpoint split_slash (s : string) : list string :=
  match s with
  | EmptyString => [EmptyString]
  | String c s' =>
      if Ascii.eqb c "/" then EmptyString :: split_slash s'
      else match split_slash s' with
           | [] => [String c EmptyString]
           | x :: xs => String c x :: xs
           end
  end.

Fixpoint leading_slashes (s : string) : nat :=
  match s with
  | String c s' => if Ascii.eqb c "/" then S (leading_slashes s') else O
  | EmptyString => O
  end.

(** The root of a POSIX path: exactly two leading slashes are kept, any
    other number of them is one. *)
Definition path_root (s : string) : string :=
  match leading_slashes s with
  | O => EmptyString
  | 2%nat => "//"
  | _ => "/"
  end.

(** The components a path keeps: empty ones and ["."] are dropped. *)
Definition path_parts (s : string) : list string :=
  filter (fun x => x ≠ EmptyString ∧ x ≠ ".") (split_slash s).

(** [str(Path(s))] on a POSIX system. *)
Definition str_Path (s : string) : string :=
  let r := String.append (path_root s) (String.concat "/" (path_parts s)) in
  if String.eqb r EmptyString then "." else r.

(** *** Files *)

(** The files, by the name [open] is given: a file holds the JSON value
    its text parses to.  A name that is not bound is a missing file. *)
Abbreviation files := (gmap string json).

Section Persistence.
Context {V : Validators}.

(** [Game.load_game(load_file)]:
<<
    save_file = Path(load_file)
    with open(save_file, "r") as save:
        data = json.load(save)
    return cls(
        participants=[Participant( **val ) for val in data["participants"]],
        save_file=str(save_file))
>> *)
Definition load_game (fs : files) (load_file : string) : outcome Game :=
  let save_file := str_Path load_file in
  match fs !! save_file with
  | None => Raised FileNotFoundError
  | Some data =>
      records ← subscript data "participants";
      vals ← iterate records;
      ps ← for_each Participant_of_json vals;
      Returned {| participants := ps; save_file := Some save_file;
                  audio_name := None; player_name := None;
                  voter := None; vote_buff := None |}
  end.

(** [Game.save_game(self)]:
<<
    with open(self.save_file, "w") as save:
        json.dump(self.dict(), save, indent=2)
>>
    Opening [None] is a [TypeError], the empty name finds no file; any
    other name is written. *)
Definition save_game (fs : files) (g : Game) : outcome unit * files :=
  match save_file g with
  | None => (Raised TypeError, fs)
  | Some path =>
      if String.eqb path EmptyString then (Raised FileNotFoundError, fs)
      else (Returned tt, <[path := Game_dict g]> fs)
  end.

(** [GET /game]. *)
Definition get_game (fs : files) : outcome Game :=
  load_game fs "./game.json".

(** [POST /reset]:
<<
    game = Game.load_game("./default.game.json")
    game.save_file = "game.json"
    game.save_game()
>> *)
Definition reset_game (fs : files) : outcome unit * files :=
  match load_game fs "./default.game.json" with
  | Raised e => (Raised e, fs)
  | Returned game => save_game fs (set_save_file (Some "game.json") game)
  end.

End Persistence.

(** [Game._get_participant(self, name)]:
<<
    result = self.participants.get(name)
    if result is None:
        raise ParticipantNotFound()
    return result
>>
    [participants] is a list.  The attributes of a list, by name: *)
Definition list_attributes : list string :=
  [ "append"; "clear"; "copy"; "count"; "extend"; "index"; "insert";
    "pop"; "remove"; "reverse"; "sort" ].

(** [getattr(l, attr)] on a list: the attribute, if a list has it. *)
Definition list_getattr (attr : string) : outcome string :=
  if bool_decide (attr ∈ list_attributes) then Returned attr
  else Raised AttributeError.

Section Lookup.
(** What calling an attribute of a list of participants on a name
    yields, [None] for Python's [None]. *)
Variable call_list_attr :
  string -> list Participant -> string -> outcome (option Participant).

Definition _get_participant (g : Game) (n : string) : outcome Participant :=
  get ← list_getattr "get";
  result ← call_list_attr get (participants g) n;
  match result with
  | None => Raised ParticipantNotFound
  | Some p => Returned p
  end.

End Lookup.

(** ** Sample data *)

(** Two participants as the constructor makes them from a name alone. *)
Definition fresh_pair : store := [new_participant "A"; new_participant "B"].

(** What a participant has left to cast plus what it has cast. *)
Definition deck_balance (p : Participant) : nat :=
  (length (available_votes p) + size (voted_for p))%nat.

(** A template with two records, the second with a score and with a
    key that is no field. *)
Definition template : json :=
  JObj [ ("participants",
          JList [ JObj [("name", JStr "A")];
                  JObj [("name", JStr "B"); ("points", JInt 3);
                        ("voted_by", JObj [])] ]) ].

Definition template_files : files := {[ "default.game.json" := template ]}.

(** The defaults of the fields a record leaves out. *)
Definition defaults_applied (kwargs : list (string * json)) (p : Participant) : Prop :=
  (assoc "available_votes" kwargs = None -> available_votes p = deck) /\
  (assoc "voted_for" kwargs = None -> voted_for p = ∅) /\
  (assoc "points" kwargs = None -> points p = 0) /\
  (assoc "can_vote" kwargs = None -> can_vote p = true) /\
  (assoc "j_75_played" kwargs = None -> j_75_played p = false) /\
  (assoc "j_100_played" kwargs = None -> j_100_played p = false) /\
  (assoc "is_checked" kwargs = None -> is_checked p = false).

(** A saved game that also names a track, a player and a staged vote. *)
Definition served_items : list (string * json) :=
  [ ("participants", JList [JObj [("name", JStr "A")]]);
    ("save_file", JStr "elsewhere.json");
    ("audio_name", JStr "anthem.mp3");
    ("player_name", JStr "deck");
    ("voter", JObj [("name", JStr "A")]);
    ("vote_buff", JObj [("B", JInt 12)]) ].

Definition bare_items : list (string * json) :=
  [ ("participants", JList [JObj [("name", JStr "A")]]) ].

Definition bare_files : files := {[ "game.json" := JObj bare_items ]}.

Definition bare_game : Game :=
  {| participants := [new_participant "A"]; save_file := Some "game.json";
     audio_name := None; player_name := None; voter := None; vote_buff := None |}.

(** The participants of [template]. *)
Definition template_participants : list Participant :=
  [new_participant "A"; set_points 3 (new_participant "B")].

(** A document that is a list of records, with no object around it. *)
Definition list_files : files := {[ "game.json" := JList [JObj [("name", JStr "A")]] ]}.

(** What one level of [register_vote_by] that gets past its test makes of
    the caster: the first occurrence of the vote is gone from the deck and
    the vote is recorded under the target's name. *)
Definition after_vote (me : Participant) (target_name : string) (vote : Z) : Participant :=
  set_voted_for (<[target_name := vote]> (voted_for me))
    (set_available_votes (list_remove vote (available_votes me)) me).

Section Handlers.
Context {V : Validators}.

(** [POST /game], the body already validated as a [Game]:
<<
    def save_game(game: Game):
        game.save_game()
>> *)
Definition post_game (fs : files) (game : Game) : outcome unit * files :=
  save_game fs game.

End Handlers.

(** The fields of a participant other than its deck and its record of
    votes cast. *)
Definition same_profile (p q : Participant) : Prop :=
  name q = name p /\ avatar q = avatar p /\ points q = points p /\
  j_75_played q = j_75_played p /\ j_100_played q = j_100_played p /\
  can_vote q = can_vote p /\ is_checked q = is_checked p.

(** Three participants as the constructor makes them from a name alone. *)
Definition fresh_trio : store :=
  [new_participant "A"; new_participant "B"; new_participant "C"].

(** [fresh_pair] after A's vote of 10 for B. *)
Definition pair_after_10 : store :=
  [ after_vote (new_participant "A") "B" 10; after_vote (new_participant "B") "A" 10 ].

(** What a vote of a participant for itself makes of it: every occurrence
    of the vote is gone from the deck and the vote is recorded under the
    participant's own name. *)
Definition self_voted (me : Participant) (vote : Z) : Participant :=
  set_voted_for (<[name me := vote]> (voted_for me))
    (set_available_votes (List.filter (fun x => negb (Z.eqb vote x)) (available_votes me)) me).

(** A participant that holds a vote twice. *)
Definition doubled : Participant :=
  set_available_votes [5; 3; 5; 1] (new_participant "D").

(** The names of the fields [Participant] declares. *)
Definition field_names : list string :=
  [ "name"; "avatar"; "points"; "j_75_played"; "j_100_played";
    "available_votes"; "voted_for"; "can_vote"; "is_checked" ].

(** The values other than a list whose iteration yields nothing: the
    dict without keys and the string without characters. *)
Definition is_empty_container (j : json) : bool :=
  match j with
  | JObj [] => true
  | JStr EmptyString => true
  | _ => false
  end.

(** A game as a client may post it: a track, a player, a voter and a
    staged vote set. *)
Definition posted_game : Game :=
  {| participants := [after_vote (new_participant "A") "B" 10; new_participant "B"];
     save_file := Some "game.json";
     audio_name := Some "anthem.mp3"; player_name := Some "deck";
     voter := Some (new_participant "A");
     vote_buff := Some [("B", JInt 12)] |}.

(** A saved game whose [participants] is a dict without keys. *)
Definition empty_dict_files : files :=
  {[ "game.json" := JObj [("participants", JObj []); ("save_file", JStr "game.json")] ]}.

(** [posted_game] with the template as its [save_file]. *)
Definition misdirected_game : Game :=
  set_save_file (Some "default.game.json") posted_game.

(** Whether a string holds a slash. *)
Fixpoint has_slash (s : string) : bool :=
  match s with
  | EmptyString => false
  | String c s' => Ascii.eqb c "/" || has_slash s'
  end.

(** * Properties *)

(** ** Lists and stores *)

Lemma contains_In (x : Z) (l : list Z) : contains x l = true <-> In x l.
Proof.
  unfold contains. rewrite existsb_exists. split.
  - intros (y & Hy & Heq). apply Z.eqb_eq in Heq. now subst.
  - intros H. exists x. split; [assumption | apply Z.eqb_refl].
Qed.

Lemma contains_false (x : Z) (l : list Z) : ~ In x l -> contains x l = false.
Proof.
  intros H. destruct (contains x l) eqn:E; [| reflexivity].
  apply contains_In in E. contradiction.
Qed.

Lemma list_remove_length (x : Z) (l : list Z) :
  contains x l = true -> S (length (list_remove x l)) = length l.
Proof.
  induction l as [| y l IH]; simpl; [discriminate |].
  destruct (Z.eqb x y); simpl; [reflexivity |].
  intros H. now rewrite IH.
Qed.

Lemma votes_left_insert_eq (σ : store) (r : ref) (p : Participant) :
  (r < length σ)%nat -> votes_left (<[r := p]> σ) r = length (available_votes p).
Proof. intros H. unfold votes_left. now rewrite list_lookup_insert_eq. Qed.

Lemma votes_left_insert_ne (σ : store) (r r' : ref) (p : Participant) :
  r <> r' -> votes_left (<[r := p]> σ) r' = votes_left σ r'.
Proof. intros H. unfold votes_left. now rewrite list_lookup_insert_ne. Qed.

Lemma fmap_insert_same {B : Type} (f : Participant -> B) (σ : store) (r : ref)
    (p q : Participant) :
  σ !! r = Some p -> f q = f p -> map f (<[r := q]> σ) = map f σ.
Proof.
  revert r. induction σ as [| x σ IH]; intros [| r] H E; simpl in *; try discriminate.
  - injection H as ->. now rewrite E.
  - f_equal. now apply IH.
Qed.

(** ** Vote registration *)

(** Whatever [register_vote_by] yields, it is [IllegalVote]: the method
    never returns. *)
Lemma register_vote_by_rec_raises (fuel : nat) :
  forall (σ : store) (self vote_for : ref) (vote : Z) o σ',
    register_vote_by_rec fuel σ self vote_for vote = Some (o, σ') ->
    o = Raised IllegalVote.
Proof.
  induction fuel as [| fuel IH]; intros σ self vote_for vote o σ' H; simpl in H.
  - discriminate.
  - destruct (σ !! self) as [me |]; [| discriminate].
    destruct (σ !! vote_for) as [tgt |]; [| discriminate].
    destruct (negb (contains vote (available_votes me))).
    + now injection H as <- _.
    + match type of H with context [<[self := ?q]> σ] => set (σ1 := <[self := q]> σ) in H end.
      destruct (σ1 !! self) as [me1 |]; [| discriminate].
      destruct (σ1 !! vote_for) as [tgt1 |]; [| discriminate].
      destruct (register_vote_by_rec fuel _ vote_for self vote) as [[[r | e] σ3] |] eqn:E;
        [| | discriminate]; apply IH in E; [discriminate |].
      injection H as <- _. exact E.
Qed.

(** With references into the store, the fuel [register_vote_by] takes is
    enough. *)
Lemma register_vote_by_rec_total (fuel : nat) :
  forall (σ : store) (self vote_for : ref) (vote : Z),
    (self < length σ)%nat -> (vote_for < length σ)%nat ->
    (votes_left σ self + votes_left σ vote_for < fuel)%nat ->
    exists σ', register_vote_by_rec fuel σ self vote_for vote = Some (Raised IllegalVote, σ').
Proof.
  induction fuel as [| fuel IH]; intros σ self vote_for vote Hs Ht Hf; [lia |].
  simpl.
  destruct (lookup_lt_is_Some_2 σ self Hs) as [me Hme].
  destruct (lookup_lt_is_Some_2 σ vote_for Ht) as [tgt Htgt].
  rewrite Hme, Htgt.
  destruct (contains vote (available_votes me)) eqn:Hin; simpl; [| eauto].
  set (me' := set_available_votes _ me).
  set (σ1 := <[self := me']> σ).
  assert (Hl1 : length σ1 = length σ) by apply length_insert.
  assert (Hme1 : σ1 !! self = Some me') by now apply list_lookup_insert_eq.
  rewrite Hme1.
  assert (exists tgt1, σ1 !! vote_for = Some tgt1) as [tgt1 Htgt1].
  { apply lookup_lt_is_Some_2. now rewrite Hl1. }
  rewrite Htgt1.
  set (me'' := set_voted_for _ me').
  set (σ2 := <[self := me'']> σ1).
  assert (Hl2 : length σ2 = length σ) by (unfold σ2; now rewrite length_insert).
  assert (Hv : S (votes_left σ2 self) = votes_left σ self).
  { unfold σ2. rewrite votes_left_insert_eq by lia. simpl.
    unfold votes_left. rewrite Hme. now apply list_remove_length. }
  assert (Hv' : (votes_left σ2 vote_for <= votes_left σ vote_for)%nat).
  { destruct (decide (self = vote_for)) as [<- | Hne]; [lia |].
    unfold σ2, σ1. now rewrite !votes_left_insert_ne. }
  destruct (IH σ2 vote_for self vote) as [σ3 H3]; [lia | lia | lia |].
  rewrite H3. eauto.
Qed.

Lemma register_vote_by_raises (σ : store) (self vote_for : ref) (vote : Z) :
  (self < length σ)%nat -> (vote_for < length σ)%nat ->
  exists σ', register_vote_by σ self vote_for vote = Some (Raised IllegalVote, σ').
Proof.
  intros Hs Ht. unfold register_vote_by.
  apply register_vote_by_rec_total; [assumption | assumption | lia].
Qed.

(** No call of [register_vote_by] changes a name or a score. *)
Lemma register_vote_by_rec_points (fuel : nat) :
  forall (σ : store) (self vote_for : ref) (vote : Z) o σ',
    register_vote_by_rec fuel σ self vote_for vote = Some (o, σ') ->
    map points σ' = map points σ /\ map name σ' = map name σ.
Proof.
  induction fuel as [| fuel IH]; intros σ self vote_for vote o σ' H; simpl in H.
  - discriminate.
  - destruct (σ !! self) as [me |] eqn:Hme; [| discriminate].
    destruct (σ !! vote_for) as [tgt |]; [| discriminate].
    destruct (negb (contains vote (available_votes me))).
    + now injection H as _ <-.
    + match type of H with context [<[self := ?q]> σ] => set (σ1 := <[self := q]> σ) in H end.
      destruct (σ1 !! self) as [me1 |] eqn:Hme1; [| discriminate].
      destruct (σ1 !! vote_for) as [tgt1 |]; [| discriminate].
      assert (H1 : map points σ1 = map points σ /\ map name σ1 = map name σ).
      { split; now apply fmap_insert_same with (p := me). }
      match type of H with context [<[self := ?q]> σ1] => set (σ2 := <[self := q]> σ1) in H end.
      assert (H2 : map points σ2 = map points σ1 /\ map name σ2 = map name σ1).
      { split; now apply fmap_insert_same with (p := me1). }
      destruct (register_vote_by_rec fuel σ2 vote_for self vote) as [[[r | e] σ3] |] eqn:E;
        [| | discriminate].
      * apply register_vote_by_rec_raises in E. discriminate.
      * injection H as _ <-. apply IH in E.
        destruct E as [E1 E2], H1 as [H1 H1'], H2 as [H2 H2']. split; congruence.
Qed.

Lemma register_vote_by_points (σ σ' : store) (self vote_for : ref) (vote : Z)
    (o : outcome ref) :
  register_vote_by σ self vote_for vote = Some (o, σ') ->
  map points σ' = map points σ /\ map name σ' = map name σ.
Proof. apply register_vote_by_rec_points. Qed.

(** [register_vote_for] raises before it changes anything. *)
Lemma register_vote_for_raises (σ : store) (self voted_by : ref) (vote : Z)
    (o : outcome unit) (σ' : store) :
  register_vote_for σ self voted_by vote = Some (o, σ') ->
  o = Raised AttributeError /\ σ' = σ.
Proof.
  unfold register_vote_for. intros H.
  destruct (σ !! self); [| discriminate].
  destruct (σ !! voted_by); [| discriminate].
  simpl in H. now injection H as <- <-.
Qed.

(** ** The claims on vote registration *)

(** C1.  A legal vote of a participant for another one does not do what
    a cast does: with two fresh participants A and B, A's vote of 10 for B
    ends in [IllegalVote]; A and B have both lost their 10, each has the
    other in its [voted_for], and B's score is still 0. *)
Theorem register_vote_by_fresh_pair :
  register_vote_by fresh_pair 0 1 10 =
    Some (Raised IllegalVote,
          [ set_voted_for {["B" := 10]}
              (set_available_votes [12; 8; 7; 6; 5; 4; 3; 2; 1] (new_participant "A"));
            set_voted_for {["A" := 10]}
              (set_available_votes [12; 8; 7; 6; 5; 4; 3; 2; 1] (new_participant "B")) ]).
Proof. vm_compute. reflexivity. Qed.

(** C2.  A vote whose value is not among the caster's available votes
    raises [IllegalVote] and leaves the whole store as it was. *)
Theorem register_vote_by_illegal (σ : store) (self vote_for : ref) (vote : Z)
    (me target : Participant) :
  σ !! self = Some me -> σ !! vote_for = Some target ->
  ~ In vote (available_votes me) ->
  register_vote_by σ self vote_for vote = Some (Raised IllegalVote, σ).
Proof.
  intros Hme Htgt Hin. unfold register_vote_by. simpl.
  rewrite Hme, Htgt. now rewrite (contains_false _ _ Hin).
Qed.

Lemma register_vote_by_illegal_witness :
  register_vote_by fresh_pair 0 1 11 = Some (Raised IllegalVote, fresh_pair).
Proof.
  apply (register_vote_by_illegal fresh_pair 0 1 11
           (new_participant "A") (new_participant "B")).
  - reflexivity.
  - reflexivity.
  - simpl. lia.
Defined.

(** C3.  The lookup by name raises [AttributeError] for every game and
    every name, whether or not a participant has that name: it neither
    returns a participant nor raises [ParticipantNotFound]. *)
Theorem get_participant_raises
    (call_list_attr : string -> list Participant -> string -> outcome (option Participant))
    (g : Game) (n : string) :
  _get_participant call_list_attr g n = Raised AttributeError.
Proof. reflexivity. Qed.

(** C5.  Two legal votes between two fresh participants, A's 10 for B and
    then B's 12 for A, leave B with eight available votes and one entry in
    [voted_for]: 9, not 10.  Both calls end in [IllegalVote]. *)
Theorem deck_balance_after_two_votes :
  Forall (fun p => deck_balance p = 10%nat) fresh_pair /\
  exists σ1 σ2 b,
    register_vote_by fresh_pair 0 1 10 = Some (Raised IllegalVote, σ1) /\
    register_vote_by σ1 1 0 12 = Some (Raised IllegalVote, σ2) /\
    σ2 !! 1%nat = Some b /\
    available_votes b = [8; 7; 6; 5; 4; 3; 2; 1] /\
    voted_for b = {["A" := 12]} /\
    deck_balance b = 9%nat.
Proof.
  split.
  - repeat constructor.
  - eexists _, _, _. repeat split; vm_compute; reflexivity.
Qed.

(** C6.  No participant has a [voted_by] map and no score ever changes:
    [register_vote_for] raises [AttributeError] before it touches the
    score, and after A's legal vote of 10 for B both scores are 0 while
    reading [voted_by] of either participant raises [AttributeError]. *)
Theorem points_and_voted_by_fresh_pair :
  register_vote_for fresh_pair 1 0 10 = Some (Raised AttributeError, fresh_pair) /\
  exists σ',
    register_vote_by fresh_pair 0 1 10 = Some (Raised IllegalVote, σ') /\
    map points σ' = [0; 0] /\
    Forall (fun p => dict_attr p "voted_by" = Raised AttributeError) σ'.
Proof.
  split; [reflexivity |].
  eexists. split; [vm_compute; reflexivity |].
  split; [reflexivity | repeat constructor].
Qed.

(** ** Validation and serialisation *)

Lemma strict_list_int_map (l : list Z) : mapM strict_int (map JInt l) = Some l.
Proof. induction l as [| z l IH]; simpl; [reflexivity |]. now rewrite IH. Qed.

Lemma strict_dict_items (items : list (string * Z)) :
  mapM (fun kv : string * json => z ← strict_int (snd kv); Some (fst kv, z))
       (map (fun kv : string * Z => (fst kv, JInt (snd kv))) items) = Some items.
Proof.
  induction items as [| [k z] items IH]; simpl; [reflexivity |]. now rewrite IH.
Qed.

Lemma strict_ok : ValidatorsOk strict.
Proof.
  split; simpl; try reflexivity.
  - apply strict_list_int_map.
  - intros items _. unfold strict_dict_str_int, json_of_dict.
    now rewrite strict_dict_items.
Qed.

Lemma str_Path_not_empty (s : string) : String.eqb (str_Path s) EmptyString = false.
Proof.
  unfold str_Path.
  destruct (String.eqb (String.append _ _) EmptyString) eqn:E; [reflexivity | exact E].
Qed.

Section Serialisation.
Context {V : Validators} {HV : ValidatorsOk V}.

Lemma dict_roundtrip (m : gmap string Z) :
  dict_str_int_validator (json_of_dict (map_to_list m)) = Some m.
Proof.
  rewrite dict_str_int_validator_dict.
  - now rewrite list_to_map_to_list.
  - apply (NoDup_fst_map_to_list m).
Qed.

(** A participant is read back from its own [dict()]. *)
Lemma Participant_dict_roundtrip (p : Participant) :
  Participant_of_json (Participant_dict p) = Returned p.
Proof.
  destruct p as [n av pt j75 j100 votes vf cv chk].
  unfold Participant_of_json, Participant_dict, Participant_init, field. simpl.
  rewrite str_validator_str, int_validator_int, !bool_validator_bool,
    list_int_validator_list, dict_roundtrip.
  destruct av as [s |]; simpl; [rewrite str_validator_str |]; reflexivity.
Qed.

Lemma for_each_Participant_dict (ps : list Participant) :
  for_each Participant_of_json (map Participant_dict ps) = Returned ps.
Proof.
  induction ps as [| p ps IH]; [reflexivity |].
  cbn [map for_each]. now rewrite Participant_dict_roundtrip, IH.
Qed.

End Serialisation.

(** ** Construction *)

Section Construction.
Context {V : Validators}.

Lemma field_absent {A : Type} (validate : json -> option A) (default : A)
    (key : string) (kwargs : list (string * json)) :
  assoc key kwargs = None -> field validate default key kwargs = Returned default.
Proof. intros H. unfold field. now rewrite H. Qed.

(** What a constructed participant is made of. *)
Lemma Participant_init_inv (kwargs : list (string * json)) (p : Participant) :
  Participant_init kwargs = Returned p ->
  (exists j, assoc "name" kwargs = Some j /\ str_validator j = Some (name p)) /\
  field optional_str None "avatar" kwargs = Returned (avatar p) /\
  field int_validator 0 "points" kwargs = Returned (points p) /\
  field bool_validator false "j_75_played" kwargs = Returned (j_75_played p) /\
  field bool_validator false "j_100_played" kwargs = Returned (j_100_played p) /\
  field list_int_validator deck "available_votes" kwargs = Returned (available_votes p) /\
  field dict_str_int_validator ∅ "voted_for" kwargs = Returned (voted_for p) /\
  field bool_validator true "can_vote" kwargs = Returned (can_vote p) /\
  field bool_validator false "is_checked" kwargs = Returned (is_checked p).
Proof.
  unfold Participant_init. intros H.
  destruct (assoc "name" kwargs) as [j |]; [| discriminate].
  destruct (str_validator j) as [n |] eqn:Hn; [| discriminate].
  destruct (field optional_str None "avatar" kwargs) as [av |]; [| discriminate].
  destruct (field int_validator 0 "points" kwargs) as [pt |]; [| discriminate].
  destruct (field bool_validator false "j_75_played" kwargs) as [j75 |]; [| discriminate].
  destruct (field bool_validator false "j_100_played" kwargs) as [j100 |]; [| discriminate].
  destruct (field list_int_validator deck "available_votes" kwargs) as [votes |];
    [| discriminate].
  destruct (field dict_str_int_validator ∅ "voted_for" kwargs) as [vf |]; [| discriminate].
  destruct (field bool_validator true "can_vote" kwargs) as [cv |]; [| discriminate].
  destruct (field bool_validator false "is_checked" kwargs) as [chk |]; [| discriminate].
  simpl in H. injection H as <-. simpl. repeat split; eauto.
Qed.

Lemma Participant_init_defaults (kwargs : list (string * json)) (p : Participant) :
  Participant_init kwargs = Returned p -> defaults_applied kwargs p.
Proof.
  intros H. apply Participant_init_inv in H.
  destruct H as (_ & _ & Hpt & H75 & H100 & Hav & Hvf & Hcv & Hchk).
  unfold defaults_applied.
  repeat split; intros Habs;
    match goal with
    | E : field _ _ ?k kwargs = Returned ?x |- ?x = _ =>
        rewrite (field_absent _ _ k kwargs Habs) in E; now injection E
    end.
Qed.

Lemma load_game_inv (fs : files) (load_file : string) (g : Game) :
  load_game fs load_file = Returned g ->
  exists data records vals,
    fs !! str_Path load_file = Some data /\
    subscript data "participants" = Returned records /\
    iterate records = Returned vals /\
    for_each Participant_of_json vals = Returned (participants g) /\
    g = {| participants := participants g; save_file := Some (str_Path load_file);
           audio_name := None; player_name := None;
           voter := None; vote_buff := None |}.
Proof.
  unfold load_game. intros H.
  destruct (fs !! str_Path load_file) as [data |]; [| discriminate].
  destruct (subscript data "participants") as [records |] eqn:Hs;
    simpl in H; [| discriminate].
  destruct (iterate records) as [vals |] eqn:Hi; simpl in H; [| discriminate].
  destruct (for_each Participant_of_json vals) as [ps |] eqn:Hf;
    simpl in H; [| discriminate].
  injection H as <-. simpl. eauto 10.
Qed.

Lemma for_each_Forall2 {A B : Type} (f : A -> outcome B) (l : list A) (l' : list B) :
  for_each f l = Returned l' -> Forall2 (fun x y => f x = Returned y) l l'.
Proof.
  revert l'. induction l as [| x l IH]; simpl; intros l' H.
  - injection H as <-. constructor.
  - destruct (f x) as [y |] eqn:Hx; [| discriminate].
    destruct (for_each f l) as [ys |]; [| discriminate].
    injection H as <-. constructor; auto.
Qed.

End Construction.

Lemma Forall2_for_each {A B : Type} (f : A -> outcome B) (l : list A) (l' : list B) :
  Forall2 (fun x y => f x = Returned y) l l' -> for_each f l = Returned l'.
Proof.
  induction 1 as [| x y l l' Hx _ IH]; simpl; [reflexivity |].
  now rewrite Hx, IH.
Qed.

(** ** The claims on construction and persistence *)

(** C4 (as the code has it).  A participant constructed from a record
    that gives neither [can_vote] nor [available_votes] can vote and holds
    the full deck, so for it [can_vote] is false exactly when
    [available_votes] is empty. *)
Theorem can_vote_defaulted {V : Validators} (kwargs : list (string * json))
    (p : Participant) :
  Participant_init kwargs = Returned p ->
  assoc "can_vote" kwargs = None ->
  assoc "available_votes" kwargs = None ->
  can_vote p = true /\ available_votes p = deck /\
  (can_vote p = false <-> available_votes p = []).
Proof.
  intros H Hcv Hav. apply Participant_init_defaults in H.
  destruct H as (Hd & _ & _ & Hc & _).
  rewrite (Hd Hav), (Hc Hcv). repeat split; discriminate.
Qed.

Lemma can_vote_defaulted_witness :
  can_vote (new_participant "A") = true /\
  available_votes (new_participant "A") = deck /\
  (can_vote (new_participant "A") = false <-> available_votes (new_participant "A") = []).
Proof.
  apply (can_vote_defaulted (V := strict) [("name", JStr "A")] (new_participant "A")).
  - reflexivity.
  - reflexivity.
  - reflexivity.
Defined.

(** C4 fails for an explicit field: the record of a participant named A
    that gives [can_vote] as false constructs a participant that cannot
    vote and holds the full deck. *)
Lemma can_vote_explicit_false :
  exists p,
    Participant_init (V := strict) [("name", JStr "A"); ("can_vote", JBool false)]
      = Returned p /\
    ~ (can_vote p = false <-> available_votes p = []).
Proof.
  eexists. split; [reflexivity |].
  simpl. intros [H _]. specialize (H eq_refl). discriminate.
Qed.

Section PersistenceClaims.
Context {V : Validators} {HV : ValidatorsOk V}.

(** C7.  Saving a game that was loaded from a path and loading the path
    again gives the same game: the save succeeds, and every field of the
    game read back is the field of the game saved. *)
Theorem save_load_roundtrip (fs : files) (load_file : string) (g : Game) :
  load_game fs load_file = Returned g ->
  exists fs',
    save_game fs g = (Returned tt, fs') /\
    load_game fs' load_file = Returned g.
Proof.
  intros H. apply load_game_inv in H.
  destruct H as (data & records & vals & _ & _ & _ & _ & Hg).
  destruct g as [ps sf an pn vo vb]. simpl in Hg.
  injection Hg as -> -> -> -> ->.
  eexists. split.
  - unfold save_game. simpl. now rewrite str_Path_not_empty.
  - unfold load_game. rewrite lookup_insert_eq. simpl.
    now rewrite for_each_Participant_dict.
Qed.

(** C8 (as the code has it).  For a document that is an object whose
    [participants] is a list of records each of which constructs a
    participant, [load_game] returns the game of these participants, one
    per record and in order, every field a record leaves out at its
    default, with [save_file] the normalised path and nothing else set. *)
Theorem load_game_object (fs : files) (load_file : string)
    (items : list (string * json)) (records : list json) (ps : list Participant) :
  fs !! str_Path load_file = Some (JObj items) ->
  assoc "participants" items = Some (JList records) ->
  Forall2 (fun val p => Participant_of_json val = Returned p) records ps ->
  load_game fs load_file =
    Returned {| participants := ps; save_file := Some (str_Path load_file);
                audio_name := None; player_name := None;
                voter := None; vote_buff := None |} /\
  Forall2 (fun val p => exists kwargs, val = JObj kwargs /\ defaults_applied kwargs p)
          records ps.
Proof.
  intros Hfs Hps Hall. split.
  - unfold load_game. rewrite Hfs. simpl. rewrite Hps. simpl.
    now rewrite (Forall2_for_each _ _ _ Hall).
  - clear Hfs Hps. induction Hall as [| val p records ps Hval _ IH]; constructor; [| exact IH].
    destruct val as [| | | | | kwargs]; try discriminate.
    exists kwargs. split; [reflexivity |].
    now apply Participant_init_defaults.
Qed.

(** C9.  Whatever the files hold, if the template loads then [/reset]
    succeeds and [/game] after it returns the participants of the
    template with [save_file] the canonical name. *)
Theorem reset_then_get_game (fs : files) (g : Game) :
  load_game fs "./default.game.json" = Returned g ->
  exists fs',
    reset_game fs = (Returned tt, fs') /\
    get_game fs' =
      Returned {| participants := participants g; save_file := Some "game.json";
                  audio_name := None; player_name := None;
                  voter := None; vote_buff := None |}.
Proof.
  intros H. unfold reset_game. rewrite H.
  eexists. split; [reflexivity |].
  unfold get_game, load_game.
  change (str_Path "./game.json") with "game.json".
  rewrite lookup_insert_eq. simpl.
  now rewrite for_each_Participant_dict.
Qed.

(** C10 (as the code has it).  A game [load_game] returns has no
    [audio_name], [player_name], [voter] or [vote_buff], and its
    [save_file] is the normalised path; and of an object at the path only
    the [participants] entry matters: a document with the same entry loads
    to the same outcome. *)
Theorem load_game_only_participants (fs : files) (load_file : string) :
  (forall g, load_game fs load_file = Returned g ->
     audio_name g = None /\ player_name g = None /\ voter g = None /\
     vote_buff g = None /\ save_file g = Some (str_Path load_file)) /\
  (forall items items',
     fs !! str_Path load_file = Some (JObj items) ->
     assoc "participants" items' = assoc "participants" items ->
     load_game (<[str_Path load_file := JObj items']> fs) load_file
       = load_game fs load_file).
Proof.
  split.
  - intros g H. apply load_game_inv in H.
    destruct H as (_ & _ & _ & _ & _ & _ & _ & ->). now simpl.
  - intros items items' Hfs Heq. unfold load_game.
    rewrite lookup_insert_eq, Hfs. simpl. now rewrite Heq.
Qed.

End PersistenceClaims.

(** ** Instances *)

Lemma save_load_roundtrip_witness :
  exists fs',
    save_game bare_files bare_game = (Returned tt, fs') /\
    load_game (V := strict) fs' "./game.json" = Returned bare_game.
Proof.
  apply (save_load_roundtrip (V := strict) (HV := strict_ok) bare_files "./game.json" bare_game).
  vm_compute. reflexivity.
Defined.

Lemma load_game_object_witness :
  load_game (V := strict) template_files "./default.game.json" =
    Returned {| participants := template_participants;
                save_file := Some "default.game.json";
                audio_name := None; player_name := None;
                voter := None; vote_buff := None |} /\
  Forall2 (fun val p => exists kwargs, val = JObj kwargs /\ defaults_applied kwargs p)
          [ JObj [("name", JStr "A")];
            JObj [("name", JStr "B"); ("points", JInt 3); ("voted_by", JObj [])] ]
          template_participants.
Proof.
  apply (load_game_object (V := strict) template_files "./default.game.json"
           [ ("participants",
              JList [ JObj [("name", JStr "A")];
                      JObj [("name", JStr "B"); ("points", JInt 3);
                            ("voted_by", JObj [])] ]) ]).
  - vm_compute. reflexivity.
  - reflexivity.
  - repeat constructor.
Defined.

(** C8 fails for a document that is a top-level list of records: the
    list cannot be subscripted by ["participants"], so no game is
    returned. *)
Lemma load_game_top_level_list :
  load_game (V := strict) list_files "game.json" = Raised TypeError /\
  ~ exists g, load_game (V := strict) list_files "game.json" = Returned g.
Proof.
  split; [vm_compute; reflexivity |].
  intros [g H]. vm_compute in H. discriminate.
Qed.

Lemma reset_then_get_game_witness :
  exists fs',
    reset_game (V := strict) template_files = (Returned tt, fs') /\
    get_game (V := strict) fs' =
      Returned {| participants := template_participants; save_file := Some "game.json";
                  audio_name := None; player_name := None;
                  voter := None; vote_buff := None |}.
Proof.
  apply (reset_then_get_game (V := strict) (HV := strict_ok) template_files
           {| participants := template_participants;
              save_file := Some "default.game.json";
              audio_name := None; player_name := None;
              voter := None; vote_buff := None |}).
  vm_compute. reflexivity.
Defined.

Lemma load_game_only_participants_witness :
  (audio_name bare_game = None /\ player_name bare_game = None /\
   voter bare_game = None /\ vote_buff bare_game = None /\
   save_file bare_game = Some "game.json") /\
  load_game (V := strict) (<["game.json" := JObj served_items]> bare_files) "./game.json"
    = load_game (V := strict) bare_files "./game.json".
Proof.
  destruct (load_game_only_participants (V := strict) bare_files "./game.json") as [H1 H2].
  split.
  - apply (H1 bare_game). vm_compute. reflexivity.
  - apply (H2 bare_items served_items).
    + vm_compute. reflexivity.
    + reflexivity.
Defined.

(** C10 fails on [save_file]: the game loaded from ["./game.json"], the
    path [/game] loads, has [save_file] ["game.json"]. *)
Lemma load_game_save_file_normalised :
  exists g,
    load_game (V := strict) bare_files "./game.json" = Returned g /\
    save_file g <> Some "./game.json".
Proof.
  exists bare_game. split; [vm_compute; reflexivity | discriminate].
Qed.

(** * Further properties of vote registration *)

(** One level of the recursion: a caster that holds the vote is updated
    and the call goes on with the roles exchanged. *)
Lemma register_vote_by_rec_step (fuel : nat) (σ : store) (self vote_for : ref)
    (vote : Z) (me target : Participant) :
  σ !! self = Some me -> σ !! vote_for = Some target ->
  contains vote (available_votes me) = true ->
  register_vote_by_rec (S fuel) σ self vote_for vote =
    register_vote_by_rec fuel (<[self := after_vote me (name target) vote]> σ)
      vote_for self vote.
Proof.
  intros Hme Htgt Hin. simpl. rewrite Hme, Htgt, Hin. simpl.
  assert (Hlt : (self < length σ)%nat) by (apply lookup_lt_is_Some; eauto).
  rewrite list_lookup_insert_eq by assumption.
  assert (exists t, <[self := set_available_votes (list_remove vote (available_votes me)) me]> σ
                      !! vote_for = Some t /\ name t = name target) as (t & Hl & Ht).
  { destruct (decide (self = vote_for)) as [<- | Hne].
    - rewrite list_lookup_insert_eq by assumption. eexists. split; [reflexivity |].
      simpl. congruence.
    - rewrite list_lookup_insert_ne by assumption. eauto. }
  rewrite Hl, list_insert_insert_eq, Ht. fold (after_vote me (name target) vote).
  destruct (register_vote_by_rec fuel _ vote_for self vote) as [[[r | e] σ3] |] eqn:E;
    [| reflexivity | reflexivity].
  apply register_vote_by_rec_raises in E. discriminate.
Qed.

(** A level whose caster does not hold the vote ends the recursion. *)
Lemma register_vote_by_rec_stop (fuel : nat) (σ : store) (self vote_for : ref)
    (vote : Z) (me target : Participant) :
  σ !! self = Some me -> σ !! vote_for = Some target ->
  contains vote (available_votes me) = false ->
  register_vote_by_rec (S fuel) σ self vote_for vote = Some (Raised IllegalVote, σ).
Proof. intros Hme Htgt Hin. simpl. now rewrite Hme, Htgt, Hin. Qed.

(** More fuel does not change a result. *)
Lemma register_vote_by_rec_mono (n : nat) :
  forall (m : nat) (σ : store) (self vote_for : ref) (vote : Z) r,
    (n <= m)%nat ->
    register_vote_by_rec n σ self vote_for vote = Some r ->
    register_vote_by_rec m σ self vote_for vote = Some r.
Proof.
  induction n as [| n IH]; intros m σ self vote_for vote r Hle H; [discriminate |].
  destruct m as [| m]; [lia |].
  destruct (σ !! self) as [me |] eqn:Hme; [| simpl in H; now rewrite Hme in H].
  destruct (σ !! vote_for) as [tgt |] eqn:Htgt;
    [| simpl in H; now rewrite Hme, Htgt in H].
  destruct (contains vote (available_votes me)) eqn:Hin.
  - rewrite (register_vote_by_rec_step n _ _ _ _ _ _ Hme Htgt Hin) in H.
    rewrite (register_vote_by_rec_step m _ _ _ _ _ _ Hme Htgt Hin).
    apply IH; [lia | assumption].
  - rewrite (register_vote_by_rec_stop n _ _ _ _ _ _ Hme Htgt Hin) in H.
    now rewrite (register_vote_by_rec_stop m _ _ _ _ _ _ Hme Htgt Hin).
Qed.

(** The result of [register_vote_by] is the result at any fuel that
    gives one. *)
Lemma register_vote_by_fuel (n : nat) (σ : store) (self vote_for : ref) (vote : Z) r :
  (self < length σ)%nat -> (vote_for < length σ)%nat ->
  register_vote_by_rec n σ self vote_for vote = Some r ->
  register_vote_by σ self vote_for vote = Some r.
Proof.
  intros Hs Ht Hn.
  destruct (register_vote_by_raises σ self vote_for vote Hs Ht) as [σ' H].
  rewrite H. unfold register_vote_by in H.
  set (k := S (votes_left σ self + votes_left σ vote_for)) in H.
  apply (register_vote_by_rec_mono _ (Nat.max n k)) in H; [| lia].
  apply (register_vote_by_rec_mono _ (Nat.max n k)) in Hn; [| lia].
  congruence.
Qed.

(** A relation between stores that holds of every single update of one
    of the two participants of a call, and is reflexive and transitive,
    holds between the store given to [register_vote_by] and the store it
    leaves. *)
Lemma register_vote_by_rec_rel (R : store -> store -> Prop) (a b : ref) :
  (forall σ, R σ σ) ->
  (forall σ1 σ2 σ3, R σ1 σ2 -> R σ2 σ3 -> R σ1 σ3) ->
  (forall σ r me tname v,
     r = a \/ r = b ->
     σ !! r = Some me -> contains v (available_votes me) = true ->
     R σ (<[r := after_vote me tname v]> σ)) ->
  forall fuel σ self vote_for vote o σ',
    (self = a /\ vote_for = b) \/ (self = b /\ vote_for = a) ->
    register_vote_by_rec fuel σ self vote_for vote = Some (o, σ') -> R σ σ'.
Proof.
  intros Hrefl Htrans Hstep.
  induction fuel as [| fuel IH]; intros σ self vote_for vote o σ' Hab H; [discriminate |].
  destruct (σ !! self) as [me |] eqn:Hme; [| simpl in H; now rewrite Hme in H].
  destruct (σ !! vote_for) as [tgt |] eqn:Htgt;
    [| simpl in H; now rewrite Hme, Htgt in H].
  destruct (contains vote (available_votes me)) eqn:Hin.
  - rewrite (register_vote_by_rec_step _ _ _ _ _ _ _ Hme Htgt Hin) in H.
    eapply Htrans.
    + apply (Hstep σ self me (name tgt) vote); [tauto | assumption | assumption].
    + eapply IH; [| exact H]. tauto.
  - rewrite (register_vote_by_rec_stop _ _ _ _ _ _ _ Hme Htgt Hin) in H.
    injection H as _ <-. apply Hrefl.
Qed.

(** The same for a relation between participants, cell by cell. *)
Lemma register_vote_by_rec_pointwise (P : Participant -> Participant -> Prop) :
  (forall p, P p p) ->
  (forall p q r, P p q -> P q r -> P p r) ->
  (forall me tname v,
     contains v (available_votes me) = true -> P me (after_vote me tname v)) ->
  forall fuel σ self vote_for vote o σ',
    register_vote_by_rec fuel σ self vote_for vote = Some (o, σ') -> Forall2 P σ σ'.
Proof.
  intros Hrefl Htrans Hstep fuel σ self vote_for vote o σ' H.
  apply (register_vote_by_rec_rel (Forall2 P) self vote_for) in H; [assumption | | | | tauto].
  - intros σ0. apply Forall_Forall2_diag, Forall_forall. auto.
  - intros σ1 σ2 σ3 H12 H23. revert σ3 H23.
    induction H12; intros σ3 H23; inversion H23; subst; constructor; eauto.
  - intros σ0 r me tname v _ Hme Hin.
    rewrite <- (list_insert_id σ0 r me Hme) at 1.
    apply Forall2_insert; [| now apply Hstep].
    apply Forall_Forall2_diag, Forall_forall. auto.
Qed.

Lemma register_vote_by_pointwise (P : Participant -> Participant -> Prop) :
  (forall p, P p p) ->
  (forall p q r, P p q -> P q r -> P p r) ->
  (forall me tname v,
     contains v (available_votes me) = true -> P me (after_vote me tname v)) ->
  forall σ self vote_for vote o σ',
    register_vote_by σ self vote_for vote = Some (o, σ') -> Forall2 P σ σ'.
Proof.
  intros Hrefl Htrans Hstep σ self vote_for vote o σ'.
  now apply register_vote_by_rec_pointwise.
Qed.

Lemma list_remove_sublist (x : Z) (l : list Z) : list_remove x l `sublist_of` l.
Proof.
  induction l as [| y l IH]; simpl; [constructor |].
  destruct (Z.eqb x y); [now apply sublist_cons | now apply sublist_skip].
Qed.

(** X1.  Every call of [register_vote_by] on two participants, whatever
    the vote and the decks, ends in [IllegalVote]: the method never
    returns its target. *)
Theorem vote_always_refused (σ : store) (self vote_for : ref) (vote : Z) :
  (self < length σ)%nat -> (vote_for < length σ)%nat ->
  exists σ', register_vote_by σ self vote_for vote = Some (Raised IllegalVote, σ').
Proof. apply register_vote_by_raises. Qed.

Lemma vote_always_refused_witness :
  exists σ', register_vote_by fresh_pair 0 1 10 = Some (Raised IllegalVote, σ').
Proof. apply (vote_always_refused fresh_pair 0 1 10); simpl; lia. Defined.

(** X2.  A call of [register_vote_by] changes nothing of any participant
    but decks and records of votes cast: names, avatars, scores, the two
    joker flags, [can_vote] and [is_checked] are what they were, and no
    participant is added or removed. *)
Theorem vote_keeps_profiles (σ σ' : store) (self vote_for : ref) (vote : Z)
    (o : outcome ref) :
  register_vote_by σ self vote_for vote = Some (o, σ') ->
  Forall2 same_profile σ σ'.
Proof.
  apply register_vote_by_pointwise.
  - intros p. unfold same_profile. tauto.
  - unfold same_profile. intros p q r Hpq Hqr.
    destruct Hpq as (? & ? & ? & ? & ? & ? & ?), Hqr as (? & ? & ? & ? & ? & ? & ?).
    repeat split; congruence.
  - intros me tname v _. unfold same_profile. simpl. tauto.
Qed.

Lemma vote_keeps_profiles_witness : Forall2 same_profile fresh_pair pair_after_10.
Proof.
  apply (vote_keeps_profiles fresh_pair pair_after_10 0 1 10 (Raised IllegalVote)).
  vm_compute. reflexivity.
Defined.

(** X3.  A call of [register_vote_by] leaves every participant other
    than the caster and the target as it was. *)
Theorem vote_leaves_others (σ σ' : store) (self vote_for : ref) (vote : Z)
    (o : outcome ref) :
  register_vote_by σ self vote_for vote = Some (o, σ') ->
  forall r : ref, r <> self -> r <> vote_for -> σ' !! r = σ !! r.
Proof.
  intros H.
  refine (register_vote_by_rec_rel
            (fun σ1 σ2 => forall r : ref, r <> self -> r <> vote_for -> σ2 !! r = σ1 !! r)
            self vote_for _ _ _ _ σ self vote_for vote o σ' _ H).
  - reflexivity.
  - intros σ1 σ2 σ3 H12 H23 r Hs Ht. now rewrite H23, H12.
  - intros σ0 i me tname v Hi _ _ r Hs Ht.
    apply list_lookup_insert_ne. destruct Hi; congruence.
  - tauto.
Qed.

Lemma vote_leaves_others_witness :
  (fresh_pair ++ [new_participant "C"]) !! 2%nat = Some (new_participant "C") /\
  (pair_after_10 ++ [new_participant "C"]) !! 2%nat = fresh_trio !! 2%nat.
Proof.
  split; [reflexivity |].
  apply (vote_leaves_others fresh_trio (pair_after_10 ++ [new_participant "C"])
           0 1 10 (Raised IllegalVote)).
  - vm_compute. reflexivity.
  - lia.
  - lia.
Defined.

(** X4.  Decks only shrink: after a call of [register_vote_by] the
    available votes of every participant are a sublist of what they were;
    no vote is ever put back or added. *)
Theorem vote_decks_shrink (σ σ' : store) (self vote_for : ref) (vote : Z)
    (o : outcome ref) :
  register_vote_by σ self vote_for vote = Some (o, σ') ->
  Forall2 (fun p p' => available_votes p' `sublist_of` available_votes p) σ σ'.
Proof.
  apply register_vote_by_pointwise.
  - intros p. reflexivity.
  - intros p q r Hpq Hqr. now transitivity (available_votes q).
  - intros me tname v _. simpl. apply list_remove_sublist.
Qed.

Lemma vote_decks_shrink_witness :
  Forall2 (fun p p' => available_votes p' `sublist_of` available_votes p)
          fresh_pair pair_after_10.
Proof.
  apply (vote_decks_shrink fresh_pair pair_after_10 0 1 10 (Raised IllegalVote)).
  vm_compute. reflexivity.
Defined.

(** X5.  The number of available votes plus the number of recorded votes
    of a participant never grows under [register_vote_by]: a vote leaves
    the deck and is recorded under a name, a new one or one already
    there. *)
Theorem vote_balance_never_grows (σ σ' : store) (self vote_for : ref) (vote : Z)
    (o : outcome ref) :
  register_vote_by σ self vote_for vote = Some (o, σ') ->
  Forall2 (fun p p' => (deck_balance p' <= deck_balance p)%nat) σ σ'.
Proof.
  apply register_vote_by_pointwise.
  - intros p. lia.
  - intros p q r Hpq Hqr. lia.
  - intros me tname v Hin. unfold deck_balance. simpl.
    apply list_remove_length in Hin. rewrite map_size_insert.
    destruct (voted_for me !! tname); simpl; lia.
Qed.

Lemma vote_balance_never_grows_witness :
  Forall2 (fun p p' => (deck_balance p' <= deck_balance p)%nat) fresh_pair pair_after_10.
Proof.
  apply (vote_balance_never_grows fresh_pair pair_after_10 0 1 10 (Raised IllegalVote)).
  vm_compute. reflexivity.
Defined.

Lemma list_remove_NoDup (x : Z) (l : list Z) : NoDup l -> ~ In x (list_remove x l).
Proof.
  induction 1 as [| y l Hy Hl IH]; simpl; [tauto |].
  destruct (Z.eqb_spec x y) as [-> | Hne].
  - now rewrite <- list_elem_of_In.
  - simpl. intros [-> | H]; [congruence | now apply IH].
Qed.

Lemma sublist_not_In (x : Z) (l k : list Z) : l `sublist_of` k -> ~ In x k -> ~ In x l.
Proof.
  intros Hs Hk Hl. apply Hk. rewrite <- list_elem_of_In in *.
  now apply (sublist_subseteq _ _ Hs).
Qed.

(** X6.  A vote that the caster holds exactly once, cast for another
    participant: the call ends in [IllegalVote], the caster has lost the
    vote and recorded it under the target's name, and the target, if it
    holds the vote too, has lost one occurrence of it and recorded it
    under the caster's name; otherwise the target is as it was. *)
Theorem legal_vote_effect (σ : store) (self vote_for : ref) (vote : Z)
    (me target : Participant) :
  self <> vote_for ->
  σ !! self = Some me -> σ !! vote_for = Some target ->
  NoDup (available_votes me) -> In vote (available_votes me) ->
  register_vote_by σ self vote_for vote =
    Some (Raised IllegalVote,
          if contains vote (available_votes target)
          then <[vote_for := after_vote target (name me) vote]>
                 (<[self := after_vote me (name target) vote]> σ)
          else <[self := after_vote me (name target) vote]> σ).
Proof.
  intros Hne Hme Htgt Hnd Hin.
  assert (Hs : (self < length σ)%nat) by (apply lookup_lt_is_Some; eauto).
  assert (Ht : (vote_for < length σ)%nat) by (apply lookup_lt_is_Some; eauto).
  apply (register_vote_by_fuel 3); [assumption | assumption |].
  rewrite (register_vote_by_rec_step _ _ _ _ _ _ _ Hme Htgt) by now apply contains_In.
  set (me' := after_vote me (name target) vote).
  set (σ2 := <[self := me']> σ).
  assert (Hme2 : σ2 !! self = Some me') by now apply list_lookup_insert_eq.
  assert (Htgt2 : σ2 !! vote_for = Some target)
    by (unfold σ2; now rewrite list_lookup_insert_ne).
  destruct (contains vote (available_votes target)) eqn:Hc.
  - rewrite (register_vote_by_rec_step _ _ _ _ _ _ _ Htgt2 Hme2 Hc).
    apply register_vote_by_rec_stop
      with (me := me') (target := after_vote target (name me') vote).
    + now rewrite list_lookup_insert_ne.
    + apply list_lookup_insert_eq. unfold σ2. now rewrite length_insert.
    + apply contains_false. simpl. now apply list_remove_NoDup.
  - now apply register_vote_by_rec_stop with (me := target) (target := me').
Qed.

Lemma legal_vote_effect_witness :
  register_vote_by fresh_pair 0 1 10 = Some (Raised IllegalVote, pair_after_10).
Proof.
  apply (legal_vote_effect fresh_pair 0 1 10 (new_participant "A") (new_participant "B")).
  - lia.
  - reflexivity.
  - reflexivity.
  - simpl. repeat (constructor; [rewrite list_elem_of_In; simpl; lia |]). constructor.
  - simpl. lia.
Defined.

(** X7.  A vote cannot be cast twice: once a caster whose deck holds a
    vote once has called [register_vote_by] with it, for whatever target,
    the same call again is refused with [IllegalVote] and changes
    nothing. *)
Theorem vote_not_repeatable (σ σ' : store) (self vote_for : ref) (vote : Z)
    (o : outcome ref) (me : Participant) :
  σ !! self = Some me ->
  NoDup (available_votes me) -> In vote (available_votes me) ->
  register_vote_by σ self vote_for vote = Some (o, σ') ->
  register_vote_by σ' self vote_for vote = Some (Raised IllegalVote, σ').
Proof.
  intros Hme Hnd Hin H. unfold register_vote_by in H.
  destruct (σ !! vote_for) as [tgt |] eqn:Htgt;
    [| simpl in H; now rewrite Hme, Htgt in H].
  rewrite (register_vote_by_rec_step _ _ _ _ _ _ _ Hme Htgt) in H by now apply contains_In.
  set (σ2 := <[self := after_vote me (name tgt) vote]> σ) in H.
  assert (Hs : (self < length σ)%nat) by (apply lookup_lt_is_Some; eauto).
  assert (Ht : (vote_for < length σ)%nat) by (apply lookup_lt_is_Some; eauto).
  apply (register_vote_by_rec_pointwise
           (fun p p' => available_votes p' `sublist_of` available_votes p)) in H.
  - assert (Hl : length σ' = length σ).
    { rewrite <- (Forall2_length _ _ _ H). apply length_insert. }
    destruct (lookup_lt_is_Some_2 σ' self) as [me' Hme']; [lia |].
    destruct (lookup_lt_is_Some_2 σ' vote_for) as [tgt' Htgt']; [lia |].
    unfold register_vote_by.
    apply register_vote_by_rec_stop with (me := me') (target := tgt'); try assumption.
    apply contains_false.
    assert (Hme2 : σ2 !! self = Some (after_vote me (name tgt) vote))
      by now apply list_lookup_insert_eq.
    pose proof (Forall2_lookup_lr _ _ _ _ _ _ H Hme2 Hme') as Hsub. simpl in Hsub.
    apply (sublist_not_In _ _ _ Hsub). now apply list_remove_NoDup.
  - intros p. reflexivity.
  - intros p q r Hpq Hqr. now transitivity (available_votes q).
  - intros p tname v _. simpl. apply list_remove_sublist.
Qed.

Lemma vote_not_repeatable_witness :
  register_vote_by pair_after_10 0 1 10 = Some (Raised IllegalVote, pair_after_10).
Proof.
  apply (vote_not_repeatable fresh_pair pair_after_10 0 1 10 (Raised IllegalVote)
           (new_participant "A")).
  - reflexivity.
  - simpl. repeat (constructor; [rewrite list_elem_of_In; simpl; lia |]). constructor.
  - simpl. lia.
  - vm_compute. reflexivity.
Defined.

Lemma filter_without (v : Z) (l : list Z) :
  contains v l = false -> List.filter (fun x => negb (Z.eqb v x)) l = l.
Proof.
  induction l as [| y l IH]; simpl; [reflexivity |].
  destruct (Z.eqb v y); simpl; [discriminate |]. intros H. now rewrite IH.
Qed.

Lemma filter_list_remove (v : Z) (l : list Z) :
  List.filter (fun x => negb (Z.eqb v x)) (list_remove v l)
    = List.filter (fun x => negb (Z.eqb v x)) l.
Proof.
  induction l as [| y l IH]; simpl; [reflexivity |].
  destruct (Z.eqb v y) eqn:E; simpl; [reflexivity |]. now rewrite E, IH.
Qed.

Lemma self_vote_rec (fuel : nat) :
  forall (σ : store) (self : ref) (vote : Z) (me : Participant),
    σ !! self = Some me ->
    (length (available_votes me) < fuel)%nat ->
    register_vote_by_rec fuel σ self self vote =
      Some (Raised IllegalVote,
            if contains vote (available_votes me)
            then <[self := self_voted me vote]> σ else σ).
Proof.
  induction fuel as [| fuel IH]; intros σ self vote me Hme Hlen; [lia |].
  destruct (contains vote (available_votes me)) eqn:Hin.
  - rewrite (register_vote_by_rec_step _ _ _ _ _ _ _ Hme Hme Hin).
    assert (Hs : (self < length σ)%nat) by (apply lookup_lt_is_Some; eauto).
    set (me1 := after_vote me (name me) vote).
    rewrite (IH _ self vote me1).
    + f_equal. f_equal.
      destruct (contains vote (available_votes me1)) eqn:Hin1.
      * rewrite list_insert_insert_eq. f_equal.
        unfold self_voted, me1. simpl.
        rewrite insert_insert_eq, filter_list_remove. reflexivity.
      * f_equal. unfold self_voted, me1, after_vote.
        simpl in Hin1. rewrite <- (filter_list_remove vote (available_votes me)).
        now rewrite (filter_without _ _ Hin1).
    + now apply list_lookup_insert_eq.
    + simpl. apply list_remove_length in Hin. lia.
  - now apply register_vote_by_rec_stop with (me := me) (target := me).
Qed.

(** X8.  A vote of a participant for itself, with a vote it holds: the
    call ends in [IllegalVote], every occurrence of the vote is gone from
    the participant's deck, and the vote is recorded under its own
    name. *)
Theorem self_vote_effect (σ : store) (self : ref) (vote : Z) (me : Participant) :
  σ !! self = Some me -> In vote (available_votes me) ->
  register_vote_by σ self self vote =
    Some (Raised IllegalVote, <[self := self_voted me vote]> σ).
Proof.
  intros Hme Hin. apply contains_In in Hin.
  unfold register_vote_by.
  rewrite (self_vote_rec _ σ self vote me Hme).
  - now rewrite Hin.
  - unfold votes_left. rewrite Hme. lia.
Qed.

Lemma self_vote_effect_witness :
  register_vote_by [doubled] 0 0 5 =
    Some (Raised IllegalVote,
          [ set_voted_for {["D" := 5]} (set_available_votes [3; 1] (new_participant "D")) ]).
Proof.
  apply (self_vote_effect [doubled] 0 5 doubled).
  - reflexivity.
  - simpl. lia.
Defined.

(** * Further properties of construction and persistence *)

Section ConstructionProperties.
Context {V : Validators}.

Lemma field_agree {A : Type} (validate : json -> option A) (default : A)
    (key : string) (kwargs kwargs' : list (string * json)) :
  assoc key kwargs' = assoc key kwargs ->
  field validate default key kwargs' = field validate default key kwargs.
Proof. intros H. unfold field. now rewrite H. Qed.




(** X10.  The constructor reads the nine declared fields of a record and
    nothing else: two records that agree on these keys construct the same
    participant or fail alike, whatever else they hold, a [voted_by]
    entry included. *)
Theorem Participant_init_declared_fields (kwargs kwargs' : list (string * json)) :
  (forall key, In key field_names -> assoc key kwargs' = assoc key kwargs) ->
  Participant_init kwargs' = Participant_init kwargs.
Proof.
  intros H. unfold Participant_init.
  rewrite (H "name") by (simpl; tauto).
  rewrite (field_agree _ _ "avatar" kwargs kwargs') by (apply H; simpl; tauto).
  rewrite (field_agree _ _ "points" kwargs kwargs') by (apply H; simpl; tauto).
  rewrite (field_agree _ _ "j_75_played" kwargs kwargs') by (apply H; simpl; tauto).
  rewrite (field_agree _ _ "j_100_played" kwargs kwargs') by (apply H; simpl; tauto).
  rewrite (field_agree _ _ "available_votes" kwargs kwargs') by (apply H; simpl; tauto).
  rewrite (field_agree _ _ "voted_for" kwargs kwargs') by (apply H; simpl; tauto).
  rewrite (field_agree _ _ "can_vote" kwargs kwargs') by (apply H; simpl; tauto).
  rewrite (field_agree _ _ "is_checked" kwargs kwargs') by (apply H; simpl; tauto).
  reflexivity.
Qed.


(** X12.  A [participants] entry that is not a list: the dict without
    keys and the empty string load as a game without participants; every
    other value that is not a list makes [load_game] raise [TypeError]. *)
Theorem load_game_participants_not_a_list (fs : files) (load_file : string)
    (items : list (string * json)) (entry : json) :
  fs !! str_Path load_file = Some (JObj items) ->
  assoc "participants" items = Some entry ->
  (forall l, entry <> JList l) ->
  load_game fs load_file =
    if is_empty_container entry
    then Returned {| participants := []; save_file := Some (str_Path load_file);
                     audio_name := None; player_name := None;
                     voter := None; vote_buff := None |}
    else Raised TypeError.
Proof.
  intros Hfs Hp Hl. unfold load_game. rewrite Hfs. simpl. rewrite Hp. simpl.
  destruct entry as [| b | z | s | l | kvs]; try reflexivity.
  - destruct s as [| c s]; reflexivity.
  - now destruct (Hl l).
  - destruct kvs as [| [k v] kvs]; reflexivity.
Qed.

End ConstructionProperties.

Lemma Participant_init_declared_fields_witness :
  Participant_init (V := strict)
      [("name", JStr "B"); ("points", JInt 3); ("voted_by", JObj [("A", JInt 10)])]
    = Participant_init (V := strict) [("name", JStr "B"); ("points", JInt 3)].
Proof.
  apply (Participant_init_declared_fields (V := strict)).
  intros key Hin. simpl in Hin.
  repeat (destruct Hin as [<- | Hin]; [reflexivity |]). destruct Hin.
Defined.


Lemma load_game_participants_not_a_list_witness :
  load_game (V := strict) empty_dict_files "./game.json" =
    Returned {| participants := []; save_file := Some "game.json";
                audio_name := None; player_name := None;
                voter := None; vote_buff := None |}.
Proof.
  apply (load_game_participants_not_a_list (V := strict) empty_dict_files "./game.json"
           [("participants", JObj []); ("save_file", JStr "game.json")] (JObj [])).
  - vm_compute. reflexivity.
  - reflexivity.
  - discriminate.
Defined.

Section HandlerProperties.
Context {V : Validators} {HV : ValidatorsOk V}.

(** X9.  A participant is read back from its own [dict()]: constructing
    a participant from the serialised fields of a participant gives that
    participant, whatever its deck, its votes and its flags. *)
Theorem Participant_dict_then_init (p : Participant) :
  Participant_of_json (Participant_dict p) = Returned p.
Proof. apply Participant_dict_roundtrip. Qed.

(** X13.  [POST /game] with a game whose [save_file] is ["game.json"],
    then [GET /game]: the participants come back as posted, and
    [audio_name], [player_name], [voter] and [vote_buff] come back unset,
    whatever was posted for them. *)
Theorem post_then_get_game (fs : files) (game : Game) :
  save_file game = Some "game.json" ->
  exists fs',
    post_game fs game = (Returned tt, fs') /\
    get_game fs' =
      Returned {| participants := participants game; save_file := Some "game.json";
                  audio_name := None; player_name := None;
                  voter := None; vote_buff := None |}.
Proof.
  intros Hsf. unfold post_game, save_game. rewrite Hsf. simpl.
  eexists. split; [reflexivity |].
  unfold get_game, load_game.
  change (str_Path "./game.json") with "game.json".
  rewrite lookup_insert_eq. simpl.
  now rewrite for_each_Participant_dict.
Qed.

(** X14.  [POST /game] writes the file its body names: a game posted
    with the template's name as [save_file] replaces the template, so
    that [POST /reset] and [GET /game] after it return the participants
    that were posted. *)
Theorem post_template_then_reset (fs : files) (game : Game) :
  save_file game = Some "default.game.json" ->
  exists fs1 fs2,
    post_game fs game = (Returned tt, fs1) /\
    reset_game fs1 = (Returned tt, fs2) /\
    get_game fs2 =
      Returned {| participants := participants game; save_file := Some "game.json";
                  audio_name := None; player_name := None;
                  voter := None; vote_buff := None |}.
Proof.
  intros Hsf. unfold post_game, save_game. rewrite Hsf. simpl.
  set (fs1 := <["default.game.json" := Game_dict game]> fs).
  assert (Hload : load_game fs1 "./default.game.json" =
                    Returned {| participants := participants game;
                                save_file := Some "default.game.json";
                                audio_name := None; player_name := None;
                                voter := None; vote_buff := None |}).
  { unfold load_game, fs1.
    change (str_Path "./default.game.json") with "default.game.json".
    rewrite lookup_insert_eq. simpl. now rewrite for_each_Participant_dict. }
  exists fs1. eexists. split; [reflexivity |].
  unfold reset_game. rewrite Hload. unfold save_game. simpl.
  split; [reflexivity |].
  unfold get_game, load_game.
  change (str_Path "./game.json") with "game.json".
  rewrite lookup_insert_eq. simpl.
  now rewrite for_each_Participant_dict.
Qed.

End HandlerProperties.

Section FileProperties.
Context {V : Validators}.

(** X15.  [POST /reset] twice is [POST /reset] once: the second call has
    the outcome of the first and leaves the files as the first left
    them. *)
Theorem reset_game_idempotent (fs fs' : files) (o : outcome unit) :
  reset_game fs = (o, fs') -> reset_game fs' = (o, fs').
Proof.
  unfold reset_game. intros H.
  destruct (load_game fs "./default.game.json") as [g | e] eqn:Hload.
  - unfold save_game in H. simpl in H. injection H as <- <-.
    assert (Hload' : load_game (<["game.json" := Game_dict (set_save_file (Some "game.json") g)]> fs)
                       "./default.game.json" = Returned g).
    { rewrite <- Hload. unfold load_game.
      change (str_Path "./default.game.json") with "default.game.json".
      now rewrite lookup_insert_ne. }
    rewrite Hload'. unfold save_game. simpl. now rewrite insert_insert_eq.
  - injection H as <- <-. now rewrite Hload.
Qed.

(** X16.  [POST /reset] never writes the template: the file
    ["default.game.json"] holds after the reset what it held before,
    whether the reset succeeds or not; and a reset that fails writes
    nothing at all. *)
Theorem reset_game_keeps_template (fs fs' : files) (o : outcome unit) :
  reset_game fs = (o, fs') ->
  fs' !! "default.game.json" = fs !! "default.game.json" /\
  (o <> Returned tt -> fs' = fs).
Proof.
  unfold reset_game. intros H.
  destruct (load_game fs "./default.game.json") as [g | e].
  - unfold save_game in H. simpl in H. injection H as <- <-.
    split; [now rewrite lookup_insert_ne | congruence].
  - injection H as _ <-. split; reflexivity.
Qed.

End FileProperties.

Lemma Participant_dict_then_init_witness :
  Participant_of_json (V := strict)
      (Participant_dict (after_vote (new_participant "A") "B" 10))
    = Returned (after_vote (new_participant "A") "B" 10).
Proof. apply (Participant_dict_then_init (V := strict) (HV := strict_ok)). Defined.

Lemma post_then_get_game_witness :
  exists fs',
    post_game template_files posted_game = (Returned tt, fs') /\
    get_game (V := strict) fs' =
      Returned {| participants := participants posted_game; save_file := Some "game.json";
                  audio_name := None; player_name := None;
                  voter := None; vote_buff := None |}.
Proof.
  apply (post_then_get_game (V := strict) (HV := strict_ok) template_files posted_game).
  reflexivity.
Defined.

Lemma post_template_then_reset_witness :
  exists fs1 fs2,
    post_game template_files misdirected_game = (Returned tt, fs1) /\
    reset_game (V := strict) fs1 = (Returned tt, fs2) /\
    get_game (V := strict) fs2 =
      Returned {| participants := participants misdirected_game;
                  save_file := Some "game.json";
                  audio_name := None; player_name := None;
                  voter := None; vote_buff := None |}.
Proof.
  apply (post_template_then_reset (V := strict) (HV := strict_ok)
           template_files misdirected_game).
  reflexivity.
Defined.

Lemma reset_game_idempotent_witness :
  reset_game (V := strict)
      (<["game.json" := Game_dict {| participants := template_participants;
                                     save_file := Some "game.json";
                                     audio_name := None; player_name := None;
                                     voter := None; vote_buff := None |}]> template_files)
    = (Returned tt,
       <["game.json" := Game_dict {| participants := template_participants;
                                     save_file := Some "game.json";
                                     audio_name := None; player_name := None;
                                     voter := None; vote_buff := None |}]> template_files).
Proof.
  apply (reset_game_idempotent (V := strict) template_files).
  vm_compute. reflexivity.
Defined.

Lemma reset_game_keeps_template_witness :
  snd (reset_game (V := strict) template_files) !! "default.game.json"
    = template_files !! "default.game.json" /\
  (fst (reset_game (V := strict) template_files) <> Returned tt ->
   snd (reset_game (V := strict) template_files) = template_files).
Proof.
  apply (reset_game_keeps_template (V := strict) template_files).
  now destruct (reset_game (V := strict) template_files).
Defined.

(** * Paths *)

Lemma split_slash_cons (s : string) : exists x xs, split_slash s = x :: xs.
Proof.
  induction s as [| c s (x & xs & IH)]; simpl; [eauto |].
  destruct (Ascii.eqb c "/"); [eauto |]. rewrite IH. eauto.
Qed.

Lemma split_slash_free (s : string) :
  Forall (fun x => has_slash x = false) (split_slash s).
Proof.
  induction s as [| c s IH]; simpl; [repeat constructor |].
  destruct (Ascii.eqb c "/") eqn:Hc; [constructor; [reflexivity | assumption] |].
  destruct (split_slash s) as [| x xs]; [repeat constructor; simpl; now rewrite Hc |].
  inversion IH as [| ? ? Hx Hxs]; subst. constructor; [| assumption].
  simpl. now rewrite Hc, Hx.
Qed.

Lemma split_slash_append (x y : string) :
  has_slash x = false ->
  split_slash (String.append x (String "/" y)) = x :: split_slash y.
Proof.
  induction x as [| c x IH]; simpl; [reflexivity |].
  destruct (Ascii.eqb c "/"); simpl; [discriminate |].
  intros Hx. now rewrite (IH Hx).
Qed.

Lemma split_slash_one (x : string) : has_slash x = false -> split_slash x = [x].
Proof.
  induction x as [| c x IH]; simpl; [reflexivity |].
  destruct (Ascii.eqb c "/"); simpl; [discriminate |].
  intros Hx. now rewrite (IH Hx).
Qed.

Lemma split_slash_concat (x : string) (xs : list string) :
  Forall (fun x => has_slash x = false) (x :: xs) ->
  split_slash (String.concat "/" (x :: xs)) = x :: xs.
Proof.
  revert x. induction xs as [| y xs IH]; intros x H; inversion H as [| ? ? Hx Hxs]; subst.
  - simpl. now apply split_slash_one.
  - change (String.concat "/" (x :: y :: xs))
      with (String.append x (String "/" (String.concat "/" (y :: xs)))).
    rewrite split_slash_append by assumption. now rewrite IH.
Qed.

Lemma leading_slashes_concat (parts : list string) :
  Forall (fun x => has_slash x = false /\ x <> EmptyString) parts ->
  leading_slashes (String.concat "/" parts) = O.
Proof.
  destruct parts as [| x xs]; [reflexivity |].
  intros H. inversion H as [| ? ? [Hx Hne] _]; subst.
  destruct x as [| c x]; [congruence |].
  simpl in Hx. destruct (Ascii.eqb c "/") eqn:Hc; [discriminate |].
  destruct xs; simpl; now rewrite Hc.
Qed.

Lemma path_parts_spec (s : string) :
  Forall (fun x => has_slash x = false /\ x <> EmptyString /\ x <> ".") (path_parts s).
Proof.
  unfold path_parts. apply Forall_forall. intros x Hx.
  apply list_elem_of_filter in Hx. destruct Hx as [[H1 H2] Hin].
  pose proof (split_slash_free s) as Hf. rewrite Forall_forall in Hf. auto.
Qed.

Lemma filter_parts_id (parts : list string) :
  Forall (fun x => has_slash x = false /\ x <> EmptyString /\ x <> ".") parts ->
  filter (fun x => x ≠ EmptyString ∧ x ≠ ".") parts = parts.
Proof.
  induction 1 as [| x xs (_ & H1 & H2) _ IH]; [reflexivity |].
  rewrite filter_cons_True by tauto. now rewrite IH.
Qed.

Lemma path_parts_concat (parts : list string) :
  Forall (fun x => has_slash x = false /\ x <> EmptyString /\ x <> ".") parts ->
  path_parts (String.concat "/" parts) = parts.
Proof.
  intros H. unfold path_parts. destruct parts as [| x xs].
  - simpl. now rewrite filter_cons_False by tauto.
  - rewrite split_slash_concat; [now apply filter_parts_id |].
    eapply Forall_impl; [exact H |]. simpl. tauto.
Qed.

Lemma path_parts_slash (s : string) : path_parts (String "/" s) = path_parts s.
Proof. unfold path_parts. simpl. now rewrite filter_cons_False by tauto. Qed.

(** A root followed by parts joined by slashes is a path with that root
    and these parts. *)
Lemma path_rebuilt (root : string) (parts : list string) :
  root = EmptyString \/ root = "/" \/ root = "//" ->
  Forall (fun x => has_slash x = false /\ x <> EmptyString /\ x <> ".") parts ->
  path_root (String.append root (String.concat "/" parts)) = root /\
  path_parts (String.append root (String.concat "/" parts)) = parts.
Proof.
  intros Hroot Hparts.
  assert (Hl : leading_slashes (String.concat "/" parts) = O).
  { apply leading_slashes_concat. eapply Forall_impl; [exact Hparts |]. simpl. tauto. }
  set (body := String.concat "/" parts) in *.
  destruct Hroot as [-> | [-> | ->]].
  - change (String.append EmptyString body) with body.
    split; [unfold path_root; now rewrite Hl | now apply path_parts_concat].
  - change (String.append "/" body) with (String "/" body).
    split; [unfold path_root; cbn [leading_slashes Ascii.eqb Bool.eqb]; now rewrite Hl |].
    rewrite path_parts_slash. now apply path_parts_concat.
  - change (String.append "//" body) with (String "/" (String "/" body)).
    split; [unfold path_root; cbn [leading_slashes Ascii.eqb Bool.eqb]; now rewrite Hl |].
    rewrite !path_parts_slash. now apply path_parts_concat.
Qed.

Lemma path_root_cases (s : string) :
  path_root s = EmptyString \/ path_root s = "/" \/ path_root s = "//".
Proof.
  unfold path_root. destruct (leading_slashes s) as [| [| [| n]]]; tauto.
Qed.

(** Normalising a normalised path changes nothing. *)
Lemma str_Path_idempotent (s : string) : str_Path (str_Path s) = str_Path s.
Proof.
  unfold str_Path at 2 3.
  destruct (String.eqb (String.append (path_root s) (String.concat "/" (path_parts s)))
              EmptyString) eqn:E; [reflexivity |].
  destruct (path_rebuilt (path_root s) (path_parts s) (path_root_cases s) (path_parts_spec s))
    as [Hr Hp].
  unfold str_Path. now rewrite Hr, Hp, E.
Qed.

Section PathProperties.
Context {V : Validators}.

(** X17.  The [save_file] of a loaded game names the file the game came
    from: loading that name gives the same game, and so does loading the
    name again and again. *)
Theorem load_game_save_file (fs : files) (load_file : string) (g : Game) (path : string) :
  load_game fs load_file = Returned g ->
  save_file g = Some path ->
  load_game fs path = Returned g.
Proof.
  intros H Hsf. pose proof (load_game_inv _ _ _ H) as (_ & _ & _ & _ & _ & _ & _ & Hg).
  rewrite Hg in Hsf. simpl in Hsf. injection Hsf as <-.
  rewrite <- H. unfold load_game. now rewrite str_Path_idempotent.
Qed.

End PathProperties.

Lemma load_game_save_file_witness :
  load_game (V := strict) bare_files "game.json" = Returned bare_game.
Proof.
  apply (load_game_save_file (V := strict) bare_files "./game.json" bare_game "game.json").
  - vm_compute. reflexivity.
  - reflexivity.
Defined.
